(** * Bare-metal firmware [main.c]: LED pattern and UART greeting

    A shallow embedding of [src/fpga/firmware/main.c] and the properties of
    its UART transmitter, busy-wait delay and pattern driver.

    The program talks to three memory-mapped registers and to one volatile
    local variable.  Every volatile access is an observable event; a run of
    a function is the list of events it emits, in program order, together
    with the number of [UART_STATUS] reads made so far (the status register
    is an input: its k-th read returns whatever the hardware shows then)
    and the way the run ended: returned, or still inside a loop when the
    observation budget was used up. *)

From Equations Require Import Equations.
From Stdlib Require Import ZArith List Bool Ascii String Lia Arith.
Import ListNotations.

Local Open Scope Z_scope.

(** ** Machine integers *)

(** [uint32_t] and [uint8_t] values are integers reduced modulo 2^32 and
    2^8. *)
Definition u32 (x : Z) : Z := x mod 2 ^ 32.
Definition u8 (x : Z) : Z := x mod 2 ^ 8.

(** ** Observable events *)

Inductive event : Type :=
| RdStatus (v : Z)    (* a read of UART_STATUS that returned v *)
| WrTx (v : Z)        (* UART_TX = v *)
| WrLed (v : Z)       (* GPIO_LED = v *)
| DecCount (old : Z). (* one evaluation of count-- in delay; old is the value read *)

(** Projections of a trace on one register. *)
Fixpoint tx_writes (t : list event) : list Z :=
  match t with
  | [] => []
  | WrTx v :: t' => v :: tx_writes t'
  | _ :: t' => tx_writes t'
  end.

Fixpoint led_writes (t : list event) : list Z :=
  match t with
  | [] => []
  | WrLed v :: t' => v :: led_writes t'
  | _ :: t' => led_writes t'
  end.

Fixpoint status_reads (t : list event) : list Z :=
  match t with
  | [] => []
  | RdStatus v :: t' => v :: status_reads t'
  | _ :: t' => status_reads t'
  end.

(** An access to one of the three hardware registers (as opposed to the
    volatile local of [delay]). *)
Definition is_mmio (e : event) : bool :=
  match e with
  | DecCount _ => false
  | _ => true
  end.

(** Instrumentation of [delay]: the evaluations of [count--] (each one
    decrements the variable), and those among them whose test succeeded,
    that is the executions of the loop body. *)
Fixpoint decrements (t : list event) : nat :=
  match t with
  | [] => O
  | DecCount _ :: t' => S (decrements t')
  | _ :: t' => decrements t'
  end.

Fixpoint iterations (t : list event) : nat :=
  match t with
  | [] => O
  | DecCount old :: t' => if old =? 0 then iterations t' else S (iterations t')
  | _ :: t' => iterations t'
  end.

(** The value left in [count] by the last [count--] of a trace. *)
Fixpoint last_count (d : Z) (t : list event) : Z :=
  match t with
  | [] => d
  | DecCount old :: t' => last_count (u32 (old - 1)) t'
  | _ :: t' => last_count d t'
  end.

(** The ordering contract of the transmitter, as a monitor over a trace:
    [seen] tells whether UART_STATUS has been read with bit 0 clear since
    the last write to UART_TX; a write is allowed only when it has. *)
Fixpoint tx_after_idle (seen : bool) (t : list event) : bool :=
  match t with
  | [] => true
  | RdStatus v :: t' => tx_after_idle (seen || (Z.land v 1 =? 0)) t'
  | WrTx _ :: t' => seen && tx_after_idle false t'
  | _ :: t' => tx_after_idle seen t'
  end.

(** ** Runs *)

Record run (A : Type) : Type := Run {
  events : list event;   (* what the run emitted, oldest first *)
  polls : nat;           (* UART_STATUS reads made so far, this run included *)
  outcome : option A     (* Some a: returned a; None: still looping *)
}.
Arguments Run {A} _ _ _.
Arguments events {A} _.
Arguments polls {A} _.
Arguments outcome {A} _.

(** A computation starts after some number of status reads. *)
Definition M (A : Type) : Type := nat -> run A.

Definition ret {A : Type} (a : A) : M A := fun k => Run [] k (Some a).

Definition bind {A B : Type} (m : M A) (f : A -> M B) : M B :=
  fun k =>
    let r := m k in
    match outcome r with
    | None => Run (events r) (polls r) None
    | Some a =>
        let r' := f a (polls r) in
        Run (events r ++ events r') (polls r') (outcome r')
    end.

(** The budget ran out inside a loop. *)
Definition spin {A : Type} : M A := fun k => Run [] k None.

Declare Scope fw_scope.
Delimit Scope fw_scope with fw.
Notation "x <- m ;; f" := (bind m (fun x => f))
  (at level 61, m at next level, right associativity) : fw_scope.
Notation "m ;; f" := (bind m (fun _ => f))
  (at level 61, right associativity) : fw_scope.
Local Open Scope fw_scope.

(** ** The busy-wait delay *)

(** [while (count--) ;] on a [volatile uint32_t].  Each test reads the
    variable, stores the value minus one (modulo 2^32) and compares the
    value read with zero. *)
Equations? delay_loop (count : Z) : list event by wf (Z.to_nat (u32 count)) lt :=
  delay_loop count with Z.eq_dec (u32 count) 0 := {
    | left _ => [DecCount (u32 count)]
    | right _ => DecCount (u32 count) :: delay_loop (u32 (u32 count - 1)) }.
Proof.
  unfold u32 in *.
  assert (0 <= count mod 2 ^ 32 < 2 ^ 32) by (apply Z.mod_pos_bound; lia).
  rewrite !(Z.mod_small (count mod 2 ^ 32 - 1)) by lia.
  lia.
Qed.

(** [static void delay(volatile uint32_t count)] *)
Definition delay (count : Z) : M unit :=
  fun k => Run (delay_loop (u32 count)) k (Some tt).

Section Firmware.

(** Whether plain [char] is signed is the compiler's choice. *)
Variable char_is_signed : bool.

(** [UART_STATUS k] is the word the k-th read of the status register
    returns (k counts from 0). *)
Variable UART_STATUS : nat -> Z.

(** [(uint32_t)c] *)
Definition char_to_u32 (c : ascii) : Z :=
  let v := Z.of_N (N_of_ascii c) in
  if char_is_signed && (128 <=? v) then u32 (v - 256) else v.

(** ** Register interface *)

Definition read_UART_STATUS : M Z :=
  fun k => let v := UART_STATUS k in Run [RdStatus v] (S k) (Some v).

Definition write_UART_TX (v : Z) : M unit :=
  fun k => Run [WrTx v] k (Some tt).

Definition write_GPIO_LED (v : Z) : M unit :=
  fun k => Run [WrLed v] k (Some tt).

(** ** UART transmitter *)

(** [while (UART_STATUS & 1) ;] observed for at most [fuel] polls. *)
Fixpoint wait_idle (fuel : nat) : M unit :=
  match fuel with
  | O => spin
  | S fuel' =>
      v <- read_UART_STATUS ;;
      if Z.land v 1 =? 0 then ret tt else wait_idle fuel'
  end.

(** [static void uart_putc(char c)] *)
Definition uart_putc (fuel : nat) (c : ascii) : M unit :=
  wait_idle fuel ;;
  write_UART_TX (char_to_u32 c).

(** [static void uart_puts(const char *s)].  The Rocq string holds the
    characters in memory from [s] on; the end of the Rocq string is the
    terminating NUL of the C string. *)
Fixpoint uart_puts (fuel : nat) (s : string) : M unit :=
  match s with
  | EmptyString => ret tt
  | String c s' =>
      if (N_of_ascii c =? 0)%N then ret tt
      else uart_putc fuel c ;; uart_puts fuel s'
  end.

(** ** Pattern driver *)

(** The string literal of [main]. *)
Definition greeting : string :=
  ("Hello, Arty A7!" ++ String "013" (String "010" EmptyString))%string.

(** The argument of [delay] in the loop. *)
Definition DELAY_COUNT : Z := 5000000.

(** [pattern++] on a [uint8_t]. *)
Definition next_pattern (pattern : Z) : Z := u8 (pattern + 1).

(** [while (1) { GPIO_LED = pattern & 0x0F; pattern++; delay(5000000); }]
    observed for [n] iterations. *)
Fixpoint steady (n : nat) (pattern : Z) : M unit :=
  match n with
  | O => spin
  | S n' =>
      write_GPIO_LED (u32 (Z.land pattern 0x0F)) ;;
      let pattern := next_pattern pattern in
      delay DELAY_COUNT ;;
      steady n' pattern
  end.

(** [void main(void)], observed for [n] iterations of its loop, every
    poll loop being observed for at most [fuel] polls. *)
Definition main (n fuel : nat) : M unit :=
  uart_puts fuel greeting ;;
  let pattern := 0 in
  steady n pattern.

End Firmware.

(** The values [count--] reads when the loop starts from [n]:
    n, n-1, ..., 1, 0. *)
Fixpoint countdown (n : nat) : list Z :=
  match n with
  | O => [0]
  | S n' => Z.of_nat n :: countdown n'
  end.

(** The characters of the C string held by a Rocq string: those before
    the first NUL. *)
Fixpoint c_chars (s : string) : list ascii :=
  match s with
  | EmptyString => []
  | String c s' => if (N_of_ascii c =? 0)%N then [] else c :: c_chars s'
  end.

Definition ascii_code (c : ascii) : Z := Z.of_N (N_of_ascii c).

(** The value of [pattern] at the start of iteration [i] of the loop of
    [main], iterations counted from 0. *)
Definition pattern_at (i : nat) : Z := Nat.iter i next_pattern 0.

(** The transmitter always idle, always busy. *)
Definition always_idle (status : nat -> Z) : Prop :=
  forall k, Z.land (status k) 1 = 0.

Definition always_busy (status : nat -> Z) : Prop :=
  forall k, Z.land (status k) 1 = 1.

(** The ASCII codes of the greeting. *)
Definition greeting_bytes : list Z :=
  map ascii_code (list_ascii_of_string greeting).

(** The terminator of a C string. *)
Definition NUL : ascii := "000"%char.

(** A transmitter that, whenever polled, is found idle within [fuel]
    reads. *)
Definition responsive (status : nat -> Z) (fuel : nat) : Prop :=
  forall k, exists j, (j < fuel)%nat /\ Z.land (status (k + j)%nat) 1 = 0.

(** The use the transmitter makes of an idle report, as a monitor over a
    trace: [pending] tells whether the last event was a status read with
    bit 0 clear.  Such a read must be followed at once by the write to
    UART_TX, and nothing else may write to UART_TX. *)
Fixpoint idle_then_write (pending : bool) (t : list event) : bool :=
  match t with
  | [] => true
  | RdStatus v :: t' =>
      if pending then false else idle_then_write (Z.land v 1 =? 0) t'
  | WrTx _ :: t' => if pending then idle_then_write false t' else false
  | _ :: t' => if pending then false else idle_then_write false t'
  end.

(** The status reads of a trace that showed the transmitter idle. *)
Definition idle_reads (t : list event) : nat :=
  List.length (filter (fun v => Z.land v 1 =? 0) (status_reads t)).

(** * Properties *)

(** ** Traces *)

Lemma tx_writes_app (t1 t2 : list event) :
  tx_writes (t1 ++ t2) = tx_writes t1 ++ tx_writes t2.
Proof.
  induction t1 as [|e t1 IH]; [reflexivity|].
  destruct e; simpl; rewrite IH; reflexivity.
Qed.

Lemma led_writes_app (t1 t2 : list event) :
  led_writes (t1 ++ t2) = led_writes t1 ++ led_writes t2.
Proof.
  induction t1 as [|e t1 IH]; [reflexivity|].
  destruct e; simpl; rewrite IH; reflexivity.
Qed.

Lemma status_reads_app (t1 t2 : list event) :
  status_reads (t1 ++ t2) = status_reads t1 ++ status_reads t2.
Proof.
  induction t1 as [|e t1 IH]; [reflexivity|].
  destruct e; simpl; rewrite IH; reflexivity.
Qed.

(** A trace made of status reads only. *)
Lemma tx_writes_of_reads (status : nat -> Z) (l : list nat) :
  tx_writes (map (fun j => RdStatus (status j)) l) = [].
Proof. induction l as [|j l IH]; [reflexivity | exact IH]. Qed.

Lemma status_reads_of_reads (status : nat -> Z) (l : list nat) :
  status_reads (map (fun j => RdStatus (status j)) l) = map status l.
Proof. induction l as [|j l IH]; [reflexivity|]. cbn. rewrite IH. reflexivity. Qed.

(** Having seen the transmitter idle can only help. *)
Lemma tx_after_idle_mono (t : list event) :
  tx_after_idle false t = true -> tx_after_idle true t = true.
Proof.
  induction t as [|e t IH]; [reflexivity|].
  destruct e; simpl; auto; [|discriminate].
  destruct (Z.land v 1 =? 0); auto.
Qed.

(** ** Machine integers *)

Lemma u32_small (x : Z) : 0 <= x < 2 ^ 32 -> u32 x = x.
Proof. intros H. unfold u32. apply Z.mod_small. exact H. Qed.

Lemma u32_range (x : Z) : 0 <= u32 x < 2 ^ 32.
Proof. unfold u32. apply Z.mod_pos_bound. lia. Qed.

Lemma nibble_range (p : Z) : 0 <= Z.land p 0x0F < 16.
Proof.
  change 0x0F with (Z.ones 4). rewrite Z.land_ones by lia.
  apply Z.mod_pos_bound. lia.
Qed.

Lemma nibble_mod (p : Z) : Z.land p 0x0F = p mod 16.
Proof. change 0x0F with (Z.ones 4). rewrite Z.land_ones by lia. reflexivity. Qed.

(** ** The delay loop *)

(** The loop on a count already inside [uint32_t]. *)
Lemma delay_loop_zero : delay_loop 0 = [DecCount 0].
Proof. reflexivity. Qed.

Lemma delay_loop_step (c : Z) :
  0 < c < 2 ^ 32 -> delay_loop c = DecCount c :: delay_loop (c - 1).
Proof.
  intros Hc. rewrite delay_loop_equation_1.
  destruct (Z.eq_dec (u32 c) 0) as [E|E]; simpl.
  - rewrite u32_small in E; lia.
  - rewrite (u32_small c), (u32_small (c - 1)) by lia. reflexivity.
Qed.

Lemma delay_loop_countdown (n : nat) :
  Z.of_nat n < 2 ^ 32 -> delay_loop (Z.of_nat n) = map DecCount (countdown n).
Proof.
  induction n as [|n IH]; intros Hn.
  - exact delay_loop_zero.
  - rewrite delay_loop_step by lia.
    replace (Z.of_nat (S n) - 1) with (Z.of_nat n) by lia.
    rewrite IH by lia. reflexivity.
Qed.

Lemma countdown_decrements (n : nat) :
  decrements (map DecCount (countdown n)) = S n.
Proof. induction n as [|n IH]; [reflexivity|]. simpl. rewrite IH. reflexivity. Qed.

Lemma countdown_iterations (n : nat) :
  iterations (map DecCount (countdown n)) = n.
Proof.
  induction n as [|n IH]; [reflexivity|].
  cbn [countdown map iterations].
  destruct (Z.eqb_spec (Z.of_nat (S n)) 0) as [E|_]; [lia|].
  rewrite IH. reflexivity.
Qed.

Lemma countdown_last_count (n : nat) (d : Z) :
  last_count d (map DecCount (countdown n)) = 2 ^ 32 - 1.
Proof.
  revert d. induction n as [|n IH]; intros d; [reflexivity|].
  cbn [countdown map last_count]. apply IH.
Qed.

Lemma countdown_quiet (n : nat) :
  forallb (fun e => negb (is_mmio e)) (map DecCount (countdown n)) = true.
Proof. induction n as [|n IH]; [reflexivity|]. simpl. exact IH. Qed.

(** What is not a hardware access shows on no register. *)
Lemma quiet_projections (t : list event) :
  forallb (fun e => negb (is_mmio e)) t = true ->
  tx_writes t = [] /\ led_writes t = [] /\ status_reads t = [].
Proof.
  induction t as [|e t IH]; intros H; [repeat split|].
  destruct e; simpl in H; try discriminate. simpl. auto.
Qed.

Lemma u32_nat (count : Z) : u32 count = Z.of_nat (Z.to_nat (u32 count)).
Proof. pose proof (u32_range count). lia. Qed.

(** [delay] always returns, touches no register and reads no status. *)
Lemma delay_run (count : Z) (k : nat) :
  delay count k =
  Run (map DecCount (countdown (Z.to_nat (u32 count)))) k (Some tt).
Proof.
  unfold delay. rewrite (u32_nat count) at 1.
  rewrite delay_loop_countdown; [reflexivity|].
  rewrite <- u32_nat. apply u32_range.
Qed.

Lemma delay_quiet (count : Z) (k : nat) :
  tx_writes (events (delay count k)) = [] /\
  led_writes (events (delay count k)) = [] /\
  status_reads (events (delay count k)) = [].
Proof. rewrite delay_run. apply quiet_projections, countdown_quiet. Qed.

(** ** The transmitter *)

Section Transmitter.

Variable char_is_signed : bool.
Variable UART_STATUS : nat -> Z.

Lemma wait_idle_step (fuel k : nat) :
  wait_idle UART_STATUS (S fuel) k =
  if Z.land (UART_STATUS k) 1 =? 0
  then Run [RdStatus (UART_STATUS k)] (S k) (Some tt)
  else let r := wait_idle UART_STATUS fuel (S k) in
       Run (RdStatus (UART_STATUS k) :: events r) (polls r) (outcome r).
Proof.
  cbn [wait_idle]. unfold bind, read_UART_STATUS. cbn.
  destruct (Z.land (UART_STATUS k) 1 =? 0); reflexivity.
Qed.

(** The poll loop only reads the status register. *)
Lemma wait_idle_reads_only (fuel k : nat) :
  tx_writes (events (wait_idle UART_STATUS fuel k)) = [] /\
  led_writes (events (wait_idle UART_STATUS fuel k)) = [].
Proof.
  revert k. induction fuel as [|fuel IH]; intros k; [split; reflexivity|].
  rewrite wait_idle_step.
  destruct (Z.land (UART_STATUS k) 1 =? 0); [split; reflexivity|].
  cbn. apply IH.
Qed.

(** When the poll loop returns, its last read saw the transmitter idle:
    whatever follows is monitored from the state "idle seen". *)
Lemma wait_idle_returns_idle (fuel k : nat) (seen : bool) (rest : list event) :
  outcome (wait_idle UART_STATUS fuel k) = Some tt ->
  tx_after_idle seen (events (wait_idle UART_STATUS fuel k) ++ rest) =
  tx_after_idle true rest.
Proof.
  revert k seen. induction fuel as [|fuel IH]; intros k seen; [discriminate|].
  rewrite wait_idle_step.
  destruct (Z.land (UART_STATUS k) 1 =? 0) eqn:E; cbn.
  - intros _. rewrite E, orb_true_r. reflexivity.
  - intros H. rewrite E, orb_false_r. apply IH, H.
Qed.

Lemma wait_idle_spinning (fuel k : nat) (seen : bool) :
  outcome (wait_idle UART_STATUS fuel k) = None ->
  tx_after_idle seen (events (wait_idle UART_STATUS fuel k)) = true.
Proof.
  revert k seen. induction fuel as [|fuel IH]; intros k seen; [reflexivity|].
  rewrite wait_idle_step.
  destruct (Z.land (UART_STATUS k) 1 =? 0) eqn:E; cbn; [discriminate|].
  intros H. apply IH, H.
Qed.

(** A transmitter that stays busy keeps the loop polling. *)
Lemma wait_idle_busy (fuel k : nat) :
  always_busy UART_STATUS ->
  wait_idle UART_STATUS fuel k =
  Run (map (fun j => RdStatus (UART_STATUS j)) (seq k fuel)) (k + fuel) None.
Proof.
  intros Hbusy. revert k. induction fuel as [|fuel IH]; intros k.
  - cbn. unfold spin. rewrite Nat.add_0_r. reflexivity.
  - rewrite wait_idle_step, Hbusy. cbn. rewrite IH. cbn.
    rewrite Nat.add_succ_r. reflexivity.
Qed.

(** A transmitter that is idle lets the first poll through. *)
Lemma wait_idle_idle (fuel k : nat) :
  Z.land (UART_STATUS k) 1 = 0 ->
  wait_idle UART_STATUS (S fuel) k = Run [RdStatus (UART_STATUS k)] (S k) (Some tt).
Proof. intros Hidle. rewrite wait_idle_step, Hidle. reflexivity. Qed.

Lemma uart_putc_idle (fuel k : nat) (c : ascii) :
  Z.land (UART_STATUS k) 1 = 0 ->
  uart_putc char_is_signed UART_STATUS (S fuel) c k =
  Run [RdStatus (UART_STATUS k); WrTx (char_to_u32 char_is_signed c)]
      (S k) (Some tt).
Proof.
  intros Hidle. unfold uart_putc, bind.
  rewrite wait_idle_idle by exact Hidle. reflexivity.
Qed.

End Transmitter.

(** ** Sequencing *)

Lemma bind_returned {A B : Type} (m : M A) (f : A -> M B) (k : nat) (a : A) :
  outcome (m k) = Some a ->
  bind m f k =
  Run (events (m k) ++ events (f a (polls (m k))))
      (polls (f a (polls (m k)))) (outcome (f a (polls (m k)))).
Proof. intros H. unfold bind. rewrite H. reflexivity. Qed.

Lemma bind_spinning {A B : Type} (m : M A) (f : A -> M B) (k : nat) :
  outcome (m k) = None ->
  bind m f k = Run (events (m k)) (polls (m k)) None.
Proof. intros H. unfold bind. rewrite H. reflexivity. Qed.

(** ** The steady-state loop *)

Lemma steady_step (n : nat) (p : Z) (k : nat) :
  steady (S n) p k =
  let r := steady n (next_pattern p) k in
  Run (WrLed (u32 (Z.land p 0x0F))
         :: map DecCount (countdown (Z.to_nat (u32 DELAY_COUNT))) ++ events r)
      (polls r) (outcome r).
Proof.
  cbn [steady].
  rewrite (bind_returned _ _ k tt) by reflexivity.
  cbn [write_GPIO_LED events polls outcome].
  rewrite (bind_returned _ _ k tt) by (rewrite delay_run; reflexivity).
  rewrite delay_run. reflexivity.
Qed.

(** One iteration, the events of the delay kept abstract: all that
    matters of them is that they touch no register. *)
Lemma steady_iteration (n : nat) (p : Z) (k : nat) :
  exists d : list event,
    (tx_writes d = [] /\ led_writes d = [] /\ status_reads d = []) /\
    steady (S n) p k =
    Run (WrLed (u32 (Z.land p 0x0F)) :: d ++ events (steady n (next_pattern p) k))
        (polls (steady n (next_pattern p) k))
        (outcome (steady n (next_pattern p) k)).
Proof.
  exists (map DecCount (countdown (Z.to_nat (u32 DELAY_COUNT)))).
  split; [apply quiet_projections, countdown_quiet | apply steady_step].
Qed.

(** The loop never returns, polls nothing and leaves the UART alone. *)
Lemma steady_frame (n : nat) (p : Z) (k : nat) :
  outcome (steady n p k) = None /\
  polls (steady n p k) = k /\
  tx_writes (events (steady n p k)) = [] /\
  status_reads (events (steady n p k)) = [].
Proof.
  revert p. induction n as [|n IH]; intros p; [repeat split|].
  destruct (steady_iteration n p k) as (d & (Dtx & _ & Drd) & ->).
  destruct (IH (next_pattern p)) as (Ho & Hp & Htx & Hrd).
  cbn [events polls outcome tx_writes status_reads].
  rewrite tx_writes_app, status_reads_app, Dtx, Htx, Drd, Hrd.
  repeat split; assumption.
Qed.

(** Its LED writes, from any starting value of [pattern]. *)
Lemma steady_led_from (n : nat) (p : Z) (k : nat) :
  led_writes (events (steady n p k)) =
  map (fun i => Z.land (Nat.iter i next_pattern p) 0x0F) (seq 0 n).
Proof.
  revert p. induction n as [|n IH]; intros p; [reflexivity|].
  destruct (steady_iteration n p k) as (d & (_ & Dled & _) & ->).
  cbn [events led_writes].
  rewrite led_writes_app, Dled, IH. cbn [app seq map Nat.iter].
  rewrite u32_small by (pose proof (nibble_range p); lia).
  f_equal. rewrite <- seq_shift, map_map.
  apply map_ext. intros i. rewrite Nat.iter_succ_r. reflexivity.
Qed.

Lemma pattern_at_mod (i : nat) : pattern_at i = Z.of_nat i mod 256.
Proof.
  unfold pattern_at. induction i as [|i IH]; [reflexivity|].
  change (Nat.iter (S i) next_pattern 0)
    with (next_pattern (Nat.iter i next_pattern 0)).
  rewrite IH. unfold next_pattern, u8.
  change (2 ^ 8) with 256. rewrite Z.add_mod_idemp_l by lia.
  f_equal. lia.
Qed.

(** A trace without writes to UART_TX satisfies the ordering contract,
    and appending one to a trace does not change the verdict. *)
Lemma tx_after_idle_no_tx (t : list event) (seen : bool) :
  tx_writes t = [] -> tx_after_idle seen t = true.
Proof.
  revert seen. induction t as [|e t IH]; intros seen H; [reflexivity|].
  destruct e; simpl in *; try discriminate; auto.
Qed.

Lemma tx_after_idle_app_no_tx (t1 t2 : list event) (seen : bool) :
  tx_writes t2 = [] ->
  tx_after_idle seen (t1 ++ t2) = tx_after_idle seen t1.
Proof.
  intros H. revert seen. induction t1 as [|e t1 IH]; intros seen.
  - apply tx_after_idle_no_tx, H.
  - destruct e; simpl; rewrite ?IH; reflexivity.
Qed.

(** ** Strings and the whole program *)

Section Program.

Variable char_is_signed : bool.
Variable UART_STATUS : nat -> Z.

Lemma uart_putc_returned (fuel k : nat) (c : ascii) :
  outcome (wait_idle UART_STATUS fuel k) = Some tt ->
  uart_putc char_is_signed UART_STATUS fuel c k =
  Run (events (wait_idle UART_STATUS fuel k) ++ [WrTx (char_to_u32 char_is_signed c)])
      (polls (wait_idle UART_STATUS fuel k)) (Some tt).
Proof. intros H. unfold uart_putc. rewrite (bind_returned _ _ k tt H). reflexivity. Qed.

Lemma uart_putc_spinning (fuel k : nat) (c : ascii) :
  outcome (wait_idle UART_STATUS fuel k) = None ->
  uart_putc char_is_signed UART_STATUS fuel c k =
  Run (events (wait_idle UART_STATUS fuel k))
      (polls (wait_idle UART_STATUS fuel k)) None.
Proof. intros H. unfold uart_putc. apply bind_spinning, H. Qed.

(** [uart_putc] either returns or is still polling. *)
Lemma wait_idle_outcome (fuel k : nat) :
  outcome (wait_idle UART_STATUS fuel k) = Some tt \/
  outcome (wait_idle UART_STATUS fuel k) = None.
Proof. destruct (outcome (wait_idle UART_STATUS fuel k)) as [[]|]; auto. Qed.

Lemma uart_putc_guarded (fuel k : nat) (c : ascii) (seen : bool) :
  tx_after_idle seen (events (uart_putc char_is_signed UART_STATUS fuel c k)) = true.
Proof.
  destruct (wait_idle_outcome fuel k) as [H|H].
  - rewrite uart_putc_returned by exact H. cbn [events].
    rewrite wait_idle_returns_idle by exact H. reflexivity.
  - rewrite uart_putc_spinning by exact H. cbn [events].
    apply wait_idle_spinning, H.
Qed.

Lemma uart_putc_no_led (fuel k : nat) (c : ascii) :
  led_writes (events (uart_putc char_is_signed UART_STATUS fuel c k)) = [].
Proof.
  destruct (wait_idle_reads_only UART_STATUS fuel k) as [_ Hled].
  destruct (wait_idle_outcome fuel k) as [H|H].
  - rewrite uart_putc_returned by exact H. cbn [events].
    rewrite led_writes_app, Hled. reflexivity.
  - rewrite uart_putc_spinning by exact H. exact Hled.
Qed.

Lemma uart_puts_step (fuel k : nat) (c : ascii) (s : string) :
  (N_of_ascii c =? 0)%N = false ->
  uart_puts char_is_signed UART_STATUS fuel (String c s) k =
  bind (uart_putc char_is_signed UART_STATUS fuel c)
       (fun _ => uart_puts char_is_signed UART_STATUS fuel s) k.
Proof. intros H. cbn [uart_puts]. rewrite H. reflexivity. Qed.

Lemma uart_putc_outcome (fuel k : nat) (c : ascii) :
  outcome (uart_putc char_is_signed UART_STATUS fuel c k) = Some tt \/
  outcome (uart_putc char_is_signed UART_STATUS fuel c k) = None.
Proof.
  destruct (outcome (uart_putc char_is_signed UART_STATUS fuel c k)) as [[]|]; auto.
Qed.

(** After [uart_putc] has returned the monitor is in the state "no idle
    seen since the last write". *)
Lemma uart_putc_then (fuel k : nat) (c : ascii) (seen : bool) (rest : list event) :
  outcome (uart_putc char_is_signed UART_STATUS fuel c k) = Some tt ->
  tx_after_idle seen (events (uart_putc char_is_signed UART_STATUS fuel c k) ++ rest) =
  tx_after_idle false rest.
Proof.
  destruct (wait_idle_outcome fuel k) as [H|H].
  - rewrite uart_putc_returned by exact H. cbn [events]. intros _.
    rewrite <- app_assoc, wait_idle_returns_idle by exact H. reflexivity.
  - rewrite uart_putc_spinning by exact H. discriminate.
Qed.

Lemma uart_puts_guarded (fuel : nat) (s : string) (k : nat) (seen : bool) :
  tx_after_idle seen (events (uart_puts char_is_signed UART_STATUS fuel s k)) = true.
Proof.
  revert k seen. induction s as [|c s IH]; intros k seen; [reflexivity|].
  destruct (N_of_ascii c =? 0)%N eqn:E.
  - cbn [uart_puts]. rewrite E. reflexivity.
  - rewrite uart_puts_step by exact E.
    destruct (uart_putc_outcome fuel k c) as [H|H].
    + rewrite (bind_returned _ _ k tt H). cbn [events].
      rewrite uart_putc_then by exact H. apply IH.
    + rewrite (bind_spinning _ _ k H). cbn [events]. apply uart_putc_guarded.
Qed.

Lemma uart_puts_no_led (fuel : nat) (s : string) (k : nat) :
  led_writes (events (uart_puts char_is_signed UART_STATUS fuel s k)) = [].
Proof.
  revert k. induction s as [|c s IH]; intros k; [reflexivity|].
  destruct (N_of_ascii c =? 0)%N eqn:E.
  - cbn [uart_puts]. rewrite E. reflexivity.
  - rewrite uart_puts_step by exact E.
    destruct (uart_putc_outcome fuel k c) as [H|H].
    + rewrite (bind_returned _ _ k tt H). cbn [events].
      rewrite led_writes_app, uart_putc_no_led, IH. reflexivity.
    + rewrite (bind_spinning _ _ k H). cbn [events]. apply uart_putc_no_led.
Qed.

(** With an idle transmitter every character costs one poll and the
    string goes out whole. *)
Lemma uart_puts_idle (fuel : nat) (s : string) (k : nat) :
  always_idle UART_STATUS ->
  let r := uart_puts char_is_signed UART_STATUS (S fuel) s k in
  outcome r = Some tt /\
  polls r = (k + List.length (c_chars s))%nat /\
  tx_writes (events r) = map (char_to_u32 char_is_signed) (c_chars s).
Proof.
  intros Hidle. revert k. induction s as [|c s IH]; intros k.
  - cbn. rewrite Nat.add_0_r. auto.
  - cbn zeta. destruct (N_of_ascii c =? 0)%N eqn:E.
    + cbn [uart_puts c_chars]. rewrite E. cbn. rewrite Nat.add_0_r. auto.
    + rewrite uart_puts_step by exact E. cbn [c_chars]. rewrite E.
      rewrite (bind_returned _ _ k tt)
        by (rewrite uart_putc_idle by apply Hidle; reflexivity).
      rewrite uart_putc_idle by apply Hidle. cbn [events polls outcome].
      destruct (IH (S k)) as (Ho & Hp & Htx).
      repeat split; [exact Ho | rewrite Hp; cbn [List.length]; lia |].
      cbn [app tx_writes map]. rewrite Htx. reflexivity.
Qed.

(** [main] is the greeting followed, if it got through, by the loop. *)
Lemma main_events (n fuel k : nat) :
  let r := uart_puts char_is_signed UART_STATUS fuel greeting k in
  events (main char_is_signed UART_STATUS n fuel k) =
  match outcome r with
  | Some _ => events r ++ events (steady n 0 (polls r))
  | None => events r
  end.
Proof. unfold main, bind. cbn zeta. destruct (outcome _); reflexivity. Qed.


Lemma main_tx_writes (n fuel k : nat) :
  tx_writes (events (main char_is_signed UART_STATUS n fuel k)) =
  tx_writes (events (uart_puts char_is_signed UART_STATUS fuel greeting k)).
Proof.
  rewrite main_events. cbn zeta. destruct (outcome _); [|reflexivity].
  rewrite tx_writes_app.
  destruct (steady_frame n 0 (polls (uart_puts char_is_signed UART_STATUS fuel greeting k)))
    as (_ & _ & Htx & _).
  rewrite Htx. apply app_nil_r.
Qed.

Lemma main_led_writes (n fuel k : nat) :
  outcome (uart_puts char_is_signed UART_STATUS fuel greeting k) = Some tt ->
  led_writes (events (main char_is_signed UART_STATUS n fuel k)) =
  map (fun i => Z.land (pattern_at i) 0x0F) (seq 0 n).
Proof.
  intros H. rewrite main_events. cbn zeta. rewrite H.
  rewrite led_writes_app, uart_puts_no_led, steady_led_from. reflexivity.
Qed.

End Program.

(** ** What has been transmitted *)

Section Strings.

Variable char_is_signed : bool.
Variable UART_STATUS : nat -> Z.

(** The poll loop returns as soon as one of the reads its budget allows
    finds the transmitter idle. *)
Lemma wait_idle_responsive (fuel k : nat) :
  (exists j, (j < fuel)%nat /\ Z.land (UART_STATUS (k + j)%nat) 1 = 0) ->
  outcome (wait_idle UART_STATUS fuel k) = Some tt.
Proof.
  revert k. induction fuel as [|fuel IH]; intros k (j & Hj & Hidle); [lia|].
  rewrite wait_idle_step.
  destruct (Z.land (UART_STATUS k) 1 =? 0) eqn:E; [reflexivity|].
  cbn [outcome]. apply IH.
  destruct j as [|j].
  - rewrite Nat.add_0_r in Hidle. rewrite Hidle in E. discriminate.
  - exists j. split; [lia|].
    replace (S k + j)%nat with (k + S j)%nat by lia. exact Hidle.
Qed.

(** What [uart_putc] has written: its character once it has returned,
    nothing while it polls. *)
Lemma uart_putc_tx_returned (fuel k : nat) (c : ascii) :
  outcome (uart_putc char_is_signed UART_STATUS fuel c k) = Some tt ->
  tx_writes (events (uart_putc char_is_signed UART_STATUS fuel c k)) =
  [char_to_u32 char_is_signed c].
Proof.
  destruct (wait_idle_outcome UART_STATUS fuel k) as [H|H].
  - rewrite (uart_putc_returned _ _ _ _ _ H). cbn [events]. intros _.
    rewrite tx_writes_app.
    destruct (wait_idle_reads_only UART_STATUS fuel k) as [-> _]. reflexivity.
  - rewrite (uart_putc_spinning _ _ _ _ _ H). discriminate.
Qed.

Lemma uart_putc_tx_spinning (fuel k : nat) (c : ascii) :
  outcome (uart_putc char_is_signed UART_STATUS fuel c k) = None ->
  tx_writes (events (uart_putc char_is_signed UART_STATUS fuel c k)) = [].
Proof.
  destruct (wait_idle_outcome UART_STATUS fuel k) as [H|H].
  - rewrite (uart_putc_returned _ _ _ _ _ H). discriminate.
  - rewrite (uart_putc_spinning _ _ _ _ _ H). intros _.
    apply wait_idle_reads_only.
Qed.

Lemma uart_putc_responsive (fuel k : nat) (c : ascii) :
  responsive UART_STATUS fuel ->
  outcome (uart_putc char_is_signed UART_STATUS fuel c k) = Some tt.
Proof.
  intros Hresp.
  rewrite (uart_putc_returned _ _ _ _ _ (wait_idle_responsive fuel k (Hresp k))).
  reflexivity.
Qed.

End Strings.

(** Once [uart_puts] has returned it has written the whole string. *)
Lemma uart_puts_returned_tx
  (char_is_signed : bool) (UART_STATUS : nat -> Z) (fuel : nat) (s : string) (k : nat) :
  outcome (uart_puts char_is_signed UART_STATUS fuel s k) = Some tt ->
  tx_writes (events (uart_puts char_is_signed UART_STATUS fuel s k)) =
  map (char_to_u32 char_is_signed) (c_chars s).
Proof.
  revert k. induction s as [|c s IH]; intros k; [reflexivity|].
  destruct (N_of_ascii c =? 0)%N eqn:E.
  - cbn [uart_puts c_chars]. rewrite E. reflexivity.
  - rewrite uart_puts_step by exact E. cbn [c_chars]. rewrite E.
    destruct (uart_putc_outcome char_is_signed UART_STATUS fuel k c) as [H|H].
    + rewrite (bind_returned _ _ k tt H). cbn [events outcome]. intros Ho.
      rewrite tx_writes_app, (IH _ Ho), uart_putc_tx_returned by exact H.
      reflexivity.
    + rewrite (bind_spinning _ _ k H). discriminate.
Qed.

(** At no time has it written more than the string. *)
Lemma uart_puts_tx_length
  (char_is_signed : bool) (UART_STATUS : nat -> Z) (fuel : nat) (s : string) (k : nat) :
  (List.length (tx_writes (events (uart_puts char_is_signed UART_STATUS fuel s k)))
   <= List.length (c_chars s))%nat.
Proof.
  revert k. induction s as [|c s IH]; intros k; [apply Nat.le_refl|].
  destruct (N_of_ascii c =? 0)%N eqn:E.
  - cbn [uart_puts c_chars]. rewrite E. apply Nat.le_refl.
  - rewrite uart_puts_step by exact E. cbn [c_chars]. rewrite E.
    destruct (uart_putc_outcome char_is_signed UART_STATUS fuel k c) as [H|H].
    + rewrite (bind_returned _ _ k tt H). cbn [events].
      rewrite tx_writes_app, length_app, uart_putc_tx_returned by exact H.
      cbn [List.length Nat.add]. apply le_n_S, IH.
    + rewrite (bind_spinning _ _ k H). cbn [events].
      rewrite uart_putc_tx_spinning by exact H. apply Nat.le_0_l.
Qed.

(** Once the greeting call has returned, [main] is in its loop. *)
Lemma main_returned_events
  (char_is_signed : bool) (UART_STATUS : nat -> Z) (n fuel k : nat) :
  outcome (uart_puts char_is_signed UART_STATUS fuel greeting k) = Some tt ->
  events (main char_is_signed UART_STATUS n fuel k) =
  events (uart_puts char_is_signed UART_STATUS fuel greeting k)
    ++ events (steady n 0
                 (polls (uart_puts char_is_signed UART_STATUS fuel greeting k))).
Proof. intros H. rewrite main_events. cbn zeta. rewrite H. reflexivity. Qed.

Lemma c_chars_greeting (char_is_signed : bool) :
  map (char_to_u32 char_is_signed) (c_chars greeting) = greeting_bytes /\
  List.length (c_chars greeting) = 17%nat.
Proof. destruct char_is_signed; split; reflexivity. Qed.

(** * The specification's claims *)

Example greeting_bytes_literal :
  greeting_bytes =
  [72; 101; 108; 108; 111; 44; 32; 65; 114; 116; 121; 32; 65; 55; 33; 13; 10].
Proof. reflexivity. Qed.

(** ** Startup greeting *)

(** C1: when every read of the UART status register reports idle, the
    startup call [uart_puts("Hello, Arty A7!\r\n")] of [main] returns,
    and the values [main] writes to the UART data register, during startup
    and for as long as it is observed afterwards, are exactly the ASCII
    codes of the greeting, in order, with nothing added and nothing
    missing. *)
Theorem startup_sends_greeting
  (char_is_signed : bool) (UART_STATUS : nat -> Z) (fuel k : nat) :
  always_idle UART_STATUS -> (1 <= fuel)%nat ->
  let r := uart_puts char_is_signed UART_STATUS fuel greeting k in
  outcome r = Some tt /\
  tx_writes (events r) = greeting_bytes /\
  tx_writes (events r) =
  [72; 101; 108; 108; 111; 44; 32; 65; 114; 116; 121; 32; 65; 55; 33; 13; 10] /\
  events (main char_is_signed UART_STATUS 0 fuel k) = events r /\
  forall n : nat,
    tx_writes (events (main char_is_signed UART_STATUS n fuel k)) =
    [72; 101; 108; 108; 111; 44; 32; 65; 114; 116; 121; 32; 65; 55; 33; 13; 10].
Proof.
  intros Hidle Hfuel. destruct fuel as [|fuel]; [lia|].
  destruct (uart_puts_idle char_is_signed UART_STATUS fuel greeting k Hidle)
    as (Ho & _ & Htx).
  destruct (c_chars_greeting char_is_signed) as [Hg _].
  cbn zeta. rewrite Htx, Hg.
  split; [exact Ho|]. split; [reflexivity|]. split; [reflexivity|]. split.
  - rewrite (main_returned_events _ _ _ _ _ Ho). apply app_nil_r.
  - intros n. rewrite main_tx_writes, Htx, Hg. reflexivity.
Qed.

Lemma startup_sends_greeting_witness :
  always_idle (fun _ => 0) /\ (1 <= 1)%nat /\
  forall n : nat,
    tx_writes (events (main false (fun _ => 0) n 1 0%nat)) =
    [72; 101; 108; 108; 111; 44; 32; 65; 114; 116; 121; 32; 65; 55; 33; 13; 10].
Proof.
  assert (Hidle : always_idle (fun _ => 0)) by (intros k; reflexivity).
  assert (Hfuel : (1 <= 1)%nat) by lia.
  split; [exact Hidle|]. split; [exact Hfuel|].
  exact (proj2 (proj2 (proj2 (proj2
    (startup_sends_greeting false (fun _ => 0) 1%nat 0%nat Hidle Hfuel))))).
Defined.

(** C6 as stated does not hold: the byte stream [main] transmits on
    startup on an idle transmitter, which is that of its call of
    [uart_puts], is not 19 bytes long. *)
Lemma greeting_is_not_19_bytes :
  List.length (tx_writes (events (main false (fun _ => 0) 0 1 0%nat))) <> 19%nat /\
  List.length (tx_writes (events (uart_puts false (fun _ => 0) 1 greeting 0%nat)))
    <> 19%nat.
Proof.
  rewrite main_tx_writes. split; vm_compute; discriminate.
Qed.

(** C6, amended: the byte stream [main] transmits on startup is 17 bytes
    in all, the last two being carriage return (13) then line feed (10).
    It is complete as soon as the call of [uart_puts] has returned, stays
    so however long the program is observed, and at no time, whatever
    the status register does, has [main] written more than 17 bytes. *)
Theorem greeting_is_17_bytes
  (char_is_signed : bool) (UART_STATUS : nat -> Z) (n fuel k : nat) :
  let sent := tx_writes (events (main char_is_signed UART_STATUS n fuel k)) in
  (List.length sent <= 17)%nat /\
  (outcome (uart_puts char_is_signed UART_STATUS fuel greeting k) = Some tt ->
   List.length sent = 17%nat /\ skipn 15 sent = [13; 10]).
Proof.
  cbn zeta. rewrite main_tx_writes.
  destruct (c_chars_greeting char_is_signed) as [Hg Hlen]. split.
  - rewrite <- Hlen. apply uart_puts_tx_length.
  - intros Ho. rewrite (uart_puts_returned_tx _ _ _ _ _ Ho), Hg.
    split; reflexivity.
Qed.

Lemma greeting_is_17_bytes_witness :
  outcome (uart_puts false (fun k => if Nat.even k then 1 else 0) 2 greeting 0%nat)
    = Some tt /\
  List.length
    (tx_writes (events (main false (fun k => if Nat.even k then 1 else 0) 5 2 0%nat)))
    = 17%nat.
Proof.
  assert (Ho : outcome (uart_puts false (fun k => if Nat.even k then 1 else 0) 2
                          greeting 0%nat) = Some tt) by reflexivity.
  split; [exact Ho|].
  exact (proj1 (proj2
    (greeting_is_17_bytes false (fun k => if Nat.even k then 1 else 0)
       5%nat 2%nat 0%nat) Ho)).
Defined.

(** ** The transmitter's polling contract *)

(** The monitor does reject traces that write too early. *)
Example tx_after_idle_rejects_unpolled : tx_after_idle false [WrTx 72] = false.
Proof. reflexivity. Qed.

Example tx_after_idle_rejects_busy : tx_after_idle false [RdStatus 1; WrTx 72] = false.
Proof. reflexivity. Qed.

Example tx_after_idle_rejects_second :
  tx_after_idle false [RdStatus 0; WrTx 72; RdStatus 1; WrTx 105] = false.
Proof. reflexivity. Qed.

(** C3: whatever the status register returns and however long the call is
    observed, [uart_putc] does not write the UART data register before it
    has read the status register with bit 0 clear, after the previous data
    write; the same holds of every data write of the whole program. *)
Theorem uart_putc_waits_for_idle
  (char_is_signed : bool) (UART_STATUS : nat -> Z) (fuel k : nat) (c : ascii) :
  tx_after_idle false (events (uart_putc char_is_signed UART_STATUS fuel c k)) = true /\
  forall n, tx_after_idle false (events (main char_is_signed UART_STATUS n fuel k)) = true.
Proof.
  split; [apply uart_putc_guarded|].
  intros n. rewrite main_events. cbn zeta. destruct (outcome _).
  - rewrite tx_after_idle_app_no_tx by apply steady_frame.
    apply uart_puts_guarded.
  - apply uart_puts_guarded.
Qed.

(** C4: if every read of the status register returns busy, [uart_putc]
    has, after any number N of polls, neither returned nor written the
    data register: it has read the status register N times and is still
    in its loop. *)
Theorem uart_putc_spins_while_busy
  (char_is_signed : bool) (UART_STATUS : nat -> Z) (k : nat) (c : ascii) :
  always_busy UART_STATUS ->
  forall N : nat,
  let r := uart_putc char_is_signed UART_STATUS N c k in
  outcome r = None /\
  tx_writes (events r) = [] /\
  status_reads (events r) = map UART_STATUS (seq k N) /\
  polls r = (k + N)%nat.
Proof.
  intros Hbusy N. cbn zeta.
  pose proof (wait_idle_busy UART_STATUS N k Hbusy) as Hw.
  rewrite uart_putc_spinning by (rewrite Hw; reflexivity).
  rewrite Hw. cbn [events polls outcome].
  repeat split; [apply tx_writes_of_reads | apply status_reads_of_reads].
Qed.

Lemma uart_putc_spins_while_busy_witness :
  always_busy (fun _ => 1) /\
  outcome (uart_putc false (fun _ => 1) 1000 "H" 0%nat) = None.
Proof.
  assert (Hbusy : always_busy (fun _ => 1)) by (intros k; reflexivity).
  split; [exact Hbusy|].
  exact (proj1
    (uart_putc_spins_while_busy false (fun _ => 1) 0%nat "H"%char Hbusy 1000%nat)).
Defined.

(** C9: [uart_puts] on the empty string returns at once without a single
    register access: it emits no event and polls nothing. *)
Theorem uart_puts_empty
  (char_is_signed : bool) (UART_STATUS : nat -> Z) (fuel k : nat) :
  uart_puts char_is_signed UART_STATUS fuel EmptyString k = Run [] k (Some tt).
Proof. reflexivity. Qed.

(** ** The busy-wait delay *)

(** C5 as stated does not hold: [delay(0)] evaluates [count--] once, so it
    decrements the loop variable one time, not zero times. *)
Lemma delay_zero_decrements_once : decrements (events (delay 0 0%nat)) <> 0%nat.
Proof. rewrite delay_run. vm_compute. discriminate. Qed.

(** C5, amended: for every N that fits [uint32_t], [delay(N)] returns
    after exactly N executions of the loop body, zero of them when N is 0,
    and does no other work.  The loop variable is decremented by every
    test of [count--], the failing last one included: N + 1 times, which
    leaves it at 2^32 - 1. *)
Theorem delay_counts (N : Z) (k : nat) :
  0 <= N < 2 ^ 32 ->
  let r := delay N k in
  outcome r = Some tt /\
  iterations (events r) = Z.to_nat N /\
  decrements (events r) = S (Z.to_nat N) /\
  last_count N (events r) = 2 ^ 32 - 1 /\
  forallb (fun e => negb (is_mmio e)) (events r) = true /\
  polls r = k.
Proof.
  intros HN. cbn zeta. rewrite delay_run, (u32_small N) by exact HN.
  cbn [events outcome polls].
  rewrite countdown_iterations, countdown_decrements, countdown_last_count,
    countdown_quiet.
  repeat split.
Qed.

Lemma delay_counts_witness :
  0 <= 3 < 2 ^ 32 /\
  iterations (events (delay 3 0%nat)) = 3%nat /\
  decrements (events (delay 3 0%nat)) = 4%nat.
Proof.
  assert (H : 0 <= 3 < 2 ^ 32) by lia.
  split; [exact H|].
  split.
  - exact (proj1 (proj2 (delay_counts 3 0%nat H))).
  - exact (proj1 (proj2 (proj2 (delay_counts 3 0%nat H)))).
Defined.

(** ** The LED pattern *)

(** C2: in the steady-state loop of [main] the value written to the LED
    register in iteration i (counted from 0) is the low 4 bits of the
    8-bit counter; the counter starts at 0, goes up by one per iteration
    and wraps from 255 to 0, so that in iteration i it is i modulo 256.
    The loop is reached once the greeting call has returned. *)
Theorem steady_led_sequence
  (char_is_signed : bool) (UART_STATUS : nat -> Z) (n fuel k : nat) :
  outcome (uart_puts char_is_signed UART_STATUS fuel greeting k) = Some tt ->
  led_writes (events (main char_is_signed UART_STATUS n fuel k)) =
    map (fun i => Z.land (pattern_at i) 0x0F) (seq 0 n) /\
  (forall k' : nat,
     led_writes (events (steady n 0 k')) =
     map (fun i => Z.land (pattern_at i) 0x0F) (seq 0 n)) /\
  (forall i, pattern_at (S i) = (pattern_at i + 1) mod 256) /\
  (forall i, pattern_at i = Z.of_nat i mod 256) /\
  pattern_at 0 = 0 /\ pattern_at 255 = 255 /\ pattern_at 256 = 0.
Proof.
  intros Ho.
  split; [apply main_led_writes, Ho|].
  split; [intros k'; apply steady_led_from|].
  split; [intros i; reflexivity|].
  split; [apply pattern_at_mod|].
  rewrite !pattern_at_mod. repeat split.
Qed.

Lemma steady_led_sequence_witness :
  outcome (uart_puts false (fun k => if Nat.even k then 1 else 0) 2 greeting 0%nat)
    = Some tt /\
  led_writes (events (main false (fun k => if Nat.even k then 1 else 0) 20 2 0%nat)) =
    map (fun i => Z.land (pattern_at i) 0x0F) (seq 0 20).
Proof.
  assert (Ho : outcome (uart_puts false (fun k => if Nat.even k then 1 else 0) 2
                          greeting 0%nat) = Some tt) by reflexivity.
  split; [exact Ho|].
  exact (proj1
    (steady_led_sequence false (fun k => if Nat.even k then 1 else 0)
       20%nat 2%nat 0%nat Ho)).
Defined.

(** C10: every value the program writes to the LED register lies between
    0 and 15, that is, bits 31..4 of the written word are zero. *)
Theorem led_writes_are_nibbles
  (char_is_signed : bool) (UART_STATUS : nat -> Z) (n fuel k : nat) :
  Forall (fun v => 0 <= v <= 15 /\ Z.shiftr v 4 = 0)
         (led_writes (events (main char_is_signed UART_STATUS n fuel k))).
Proof.
  rewrite main_events. cbn zeta. destruct (outcome _).
  - rewrite led_writes_app, uart_puts_no_led, steady_led_from. cbn [app].
    apply Forall_map, Forall_forall. intros i _.
    pose proof (nibble_range (Nat.iter i next_pattern 0)) as H.
    split; [lia|]. rewrite Z.shiftr_div_pow2 by lia.
    apply Z.div_small. change (2 ^ 4) with 16. lia.
  - rewrite uart_puts_no_led. constructor.
Qed.

(** C7 as stated does not hold: with the status register always idle the
    LED history of 256 iterations, or of 257, is not 0, 1, 2, ..., 255, 0:
    the seventeenth write is 0 again, not 16. *)
Lemma led_history_is_not_the_counter :
  led_writes (events (main false (fun _ => 0) 257 1 0%nat)) <>
    map Z.of_nat (seq 0 256) ++ [0] /\
  led_writes (events (main false (fun _ => 0) 256 1 0%nat)) <>
    map Z.of_nat (seq 0 256) ++ [0] /\
  nth 16 (led_writes (events (main false (fun _ => 0) 257 1 0%nat))) 0 = 0.
Proof.
  rewrite !main_led_writes by reflexivity.
  repeat split.
  - intros H. apply (f_equal (fun l => nth 16 l 0)) in H.
    vm_compute in H. discriminate H.
  - intros H. apply (f_equal (fun l => nth 16 l 0)) in H.
    vm_compute in H. discriminate H.
Qed.

Lemma nibbles_of_seq (n : nat) :
  map (fun i => Z.land (pattern_at i) 0x0F) (seq 0 n) =
  map (fun i => Z.of_nat i mod 16) (seq 0 n).
Proof.
  apply map_ext_in. intros i Hi.
  rewrite nibble_mod, pattern_at_mod.
  change 256 with (16 * 16). rewrite Z.rem_mul_r by lia.
  rewrite Z.mul_comm, Z.mod_add by lia. apply Z.mod_mod. lia.
Qed.

(** C7, amended: with the status register always idle, the LED register
    history of one full cycle of 256 iterations is the low nibble of the
    counter, i mod 16 for i = 0, 1, ..., 255 (0 to 15, sixteen times
    over), and the next write is 0 again; it is the 8-bit counter that
    runs through 0, 1, 2, ..., 255, 0. *)
Theorem led_history_one_cycle
  (char_is_signed : bool) (UART_STATUS : nat -> Z) (fuel k : nat) :
  always_idle UART_STATUS -> (1 <= fuel)%nat ->
  led_writes (events (main char_is_signed UART_STATUS 256 fuel k)) =
    map (fun i => Z.of_nat i mod 16) (seq 0 256) /\
  led_writes (events (main char_is_signed UART_STATUS 257 fuel k)) =
    map (fun i => Z.of_nat i mod 16) (seq 0 256) ++ [0] /\
  map pattern_at (seq 0 257) = map Z.of_nat (seq 0 256) ++ [0].
Proof.
  intros Hidle Hfuel. destruct fuel as [|fuel]; [lia|].
  destruct (uart_puts_idle char_is_signed UART_STATUS fuel greeting k Hidle)
    as (Ho & _ & _).
  rewrite !main_led_writes by exact Ho. rewrite !nibbles_of_seq.
  split; [reflexivity|].
  split; vm_compute; reflexivity.
Qed.

Lemma led_history_one_cycle_witness :
  always_idle (fun _ => 0) /\ (1 <= 1)%nat /\
  led_writes (events (main false (fun _ => 0) 256 1 0%nat)) =
    map (fun i => Z.of_nat i mod 16) (seq 0 256).
Proof.
  assert (Hidle : always_idle (fun _ => 0)) by (intros k; reflexivity).
  assert (Hfuel : (1 <= 1)%nat) by lia.
  split; [exact Hidle|]. split; [exact Hfuel|].
  exact (proj1 (led_history_one_cycle false (fun _ => 0) 1%nat 0%nat Hidle Hfuel)).
Defined.

(** C8: once the startup greeting has been transmitted, that is once the
    call of [uart_puts] in [main] has returned, the rest of the run is the
    steady-state loop, which never accesses the UART: the complete history
    of writes to the UART data register is the greeting bytes and nothing
    else, however long the loop runs. *)
Theorem uart_history_is_greeting
  (char_is_signed : bool) (UART_STATUS : nat -> Z) (n fuel k : nat) :
  outcome (uart_puts char_is_signed UART_STATUS fuel greeting k) = Some tt ->
  tx_writes (events (main char_is_signed UART_STATUS n fuel k)) = greeting_bytes /\
  tx_writes (events (uart_puts char_is_signed UART_STATUS fuel greeting k)) =
    greeting_bytes /\
  events (main char_is_signed UART_STATUS n fuel k) =
    events (uart_puts char_is_signed UART_STATUS fuel greeting k)
      ++ events (steady n 0
                   (polls (uart_puts char_is_signed UART_STATUS fuel greeting k))) /\
  forall (p : Z) (k' : nat),
    tx_writes (events (steady n p k')) = [] /\
    status_reads (events (steady n p k')) = [].
Proof.
  intros Ho.
  destruct (c_chars_greeting char_is_signed) as [Hg _].
  pose proof (uart_puts_returned_tx _ _ _ _ _ Ho) as Htx. rewrite Hg in Htx.
  split; [rewrite main_tx_writes; exact Htx|].
  split; [exact Htx|].
  split; [apply main_returned_events, Ho|].
  intros p k'. destruct (steady_frame n p k') as (_ & _ & Hs & Hrd). auto.
Qed.

Lemma uart_history_is_greeting_witness :
  outcome (uart_puts false (fun k => if Nat.even k then 1 else 0) 2 greeting 0%nat)
    = Some tt /\
  tx_writes (events (main false (fun k => if Nat.even k then 1 else 0) 300 2 0%nat))
    = greeting_bytes.
Proof.
  assert (Ho : outcome (uart_puts false (fun k => if Nat.even k then 1 else 0) 2
                          greeting 0%nat) = Some tt) by reflexivity.
  split; [exact Ho|].
  exact (proj1
    (uart_history_is_greeting false (fun k => if Nat.even k then 1 else 0)
       300%nat 2%nat 0%nat Ho)).
Defined.

(** * Further properties of the code *)

(** ** Strings through the transmitter *)

Lemma uart_puts_responsive
  (char_is_signed : bool) (UART_STATUS : nat -> Z) (fuel : nat) (s : string) (k : nat) :
  responsive UART_STATUS fuel ->
  outcome (uart_puts char_is_signed UART_STATUS fuel s k) = Some tt /\
  tx_writes (events (uart_puts char_is_signed UART_STATUS fuel s k)) =
    map (char_to_u32 char_is_signed) (c_chars s).
Proof.
  intros Hresp. revert k. induction s as [|c s IH]; intros k; [split; reflexivity|].
  destruct (N_of_ascii c =? 0)%N eqn:E.
  - cbn [uart_puts c_chars]. rewrite E. split; reflexivity.
  - rewrite uart_puts_step by exact E. cbn [c_chars]. rewrite E.
    pose proof (uart_putc_responsive char_is_signed UART_STATUS fuel k c Hresp) as Hc.
    rewrite (bind_returned _ _ k tt Hc). cbn [events outcome].
    destruct (IH (polls (uart_putc char_is_signed UART_STATUS fuel c k))) as [Ho Htx].
    split; [exact Ho|].
    rewrite tx_writes_app, Htx, uart_putc_tx_returned by exact Hc. reflexivity.
Qed.

(** X1: on a transmitter that is always found idle within the polls the
    observation allows, [uart_puts] returns for every string and has then
    written to the data register the characters before the first NUL, each
    converted to [uint32_t], in order, and nothing else. *)
Theorem uart_puts_sends_c_string
  (char_is_signed : bool) (UART_STATUS : nat -> Z) (fuel : nat) (s : string) (k : nat) :
  responsive UART_STATUS fuel ->
  outcome (uart_puts char_is_signed UART_STATUS fuel s k) = Some tt /\
  tx_writes (events (uart_puts char_is_signed UART_STATUS fuel s k)) =
    map (char_to_u32 char_is_signed) (c_chars s).
Proof. apply uart_puts_responsive. Qed.

(** A transmitter that is busy on every even read and idle on every odd
    one answers within two polls. *)
Lemma responsive_alternating :
  responsive (fun k => if Nat.even k then 1 else 0) 2.
Proof.
  intros k. destruct (Nat.even k) eqn:E.
  - exists 1%nat. split; [lia|].
    rewrite Nat.add_1_r, Nat.even_succ, <- Nat.negb_even, E. reflexivity.
  - exists 0%nat. split; [lia|]. rewrite Nat.add_0_r, E. reflexivity.
Defined.

Lemma uart_puts_sends_c_string_witness :
  responsive (fun k => if Nat.even k then 1 else 0) 2 /\
  tx_writes (events (uart_puts false (fun k => if Nat.even k then 1 else 0) 2
                       (String "o" (String "k" EmptyString)) 0%nat)) =
  [111; 107].
Proof.
  pose proof responsive_alternating as Hresp.
  split; [exact Hresp|].
  exact (proj2 (uart_puts_sends_c_string false _ 2%nat
                  (String "o" (String "k" EmptyString)) 0%nat Hresp)).
Defined.

(** X2: [uart_puts] stops at the first NUL: whatever is stored after it
    has no effect on the run, for any behaviour of the status register. *)
Theorem uart_puts_stops_at_nul
  (char_is_signed : bool) (UART_STATUS : nat -> Z) (fuel : nat)
  (s1 s2 : string) (k : nat) :
  uart_puts char_is_signed UART_STATUS fuel (s1 ++ String NUL s2) k =
  uart_puts char_is_signed UART_STATUS fuel s1 k.
Proof.
  revert k. induction s1 as [|c s1 IH]; intros k; [reflexivity|].
  cbn [append uart_puts].
  destruct (N_of_ascii c =? 0)%N; [reflexivity|].
  unfold bind. destruct (outcome _); [|reflexivity].
  rewrite IH. reflexivity.
Qed.

(** X4: whatever the status register does and however long the run is
    observed, what [uart_puts] has written to the data register is a
    prefix of the string's characters, in order; it is all of them once
    the call has returned. *)
Theorem uart_puts_sends_prefix
  (char_is_signed : bool) (UART_STATUS : nat -> Z) (fuel : nat) (s : string) (k : nat) :
  exists n : nat,
    (n <= List.length (c_chars s))%nat /\
    tx_writes (events (uart_puts char_is_signed UART_STATUS fuel s k)) =
      firstn n (map (char_to_u32 char_is_signed) (c_chars s)) /\
    (outcome (uart_puts char_is_signed UART_STATUS fuel s k) = Some tt ->
     n = List.length (c_chars s)).
Proof.
  revert k. induction s as [|c s IH]; intros k.
  - exists 0%nat. repeat split. cbn. lia.
  - destruct (N_of_ascii c =? 0)%N eqn:E.
    + exists 0%nat. cbn [uart_puts c_chars]. rewrite E. repeat split. cbn. lia.
    + rewrite uart_puts_step by exact E. cbn [c_chars]. rewrite E.
      destruct (uart_putc_outcome char_is_signed UART_STATUS fuel k c) as [H|H].
      * rewrite (bind_returned _ _ k tt H). cbn [events outcome].
        destruct (IH (polls (uart_putc char_is_signed UART_STATUS fuel c k)))
          as (n & Hn & Htx & Hall).
        exists (S n). split; [cbn [List.length]; lia|]. split.
        -- rewrite tx_writes_app, Htx, uart_putc_tx_returned by exact H.
           reflexivity.
        -- intros Ho. cbn [List.length]. rewrite (Hall Ho). reflexivity.
      * rewrite (bind_spinning _ _ k H). cbn [events outcome].
        exists 0%nat. split; [lia|]. split; [|discriminate].
        apply uart_putc_tx_spinning, H.
Qed.

(** ** Polling *)

Lemma wait_idle_after_busy (UART_STATUS : nat -> Z) (j fuel k : nat) :
  (forall i, (i < j)%nat -> Z.land (UART_STATUS (k + i)%nat) 1 <> 0) ->
  Z.land (UART_STATUS (k + j)%nat) 1 = 0 ->
  (j < fuel)%nat ->
  wait_idle UART_STATUS fuel k =
  Run (map (fun i => RdStatus (UART_STATUS i)) (seq k (S j))) (k + S j) (Some tt).
Proof.
  revert fuel k. induction j as [|j IH]; intros fuel k Hbusy Hidle Hfuel;
    (destruct fuel as [|fuel]; [lia|]); rewrite wait_idle_step.
  - rewrite Nat.add_0_r in Hidle. rewrite Hidle, Nat.add_1_r. reflexivity.
  - pose proof (Hbusy 0%nat ltac:(lia)) as H0. rewrite Nat.add_0_r in H0.
    destruct (Z.eqb_spec (Z.land (UART_STATUS k) 1) 0) as [E|_]; [contradiction|].
    rewrite (IH fuel (S k)).
    + cbn [events polls outcome].
      replace (k + S (S j))%nat with (S k + S j)%nat by lia. reflexivity.
    + intros i Hi. replace (S k + i)%nat with (k + S i)%nat by lia.
      apply Hbusy. lia.
    + replace (S k + j)%nat with (k + S j)%nat by lia. exact Hidle.
    + lia.
Qed.

(** X3: if the status register shows busy on the first j reads of a call
    of [uart_putc] and idle on the next, and the call is observed for more
    than j polls, then it returns after exactly j + 1 status reads followed
    by one write of the character to the data register. *)
Theorem uart_putc_after_busy_reads
  (char_is_signed : bool) (UART_STATUS : nat -> Z) (j fuel k : nat) (c : ascii) :
  (forall i, (i < j)%nat -> Z.land (UART_STATUS (k + i)%nat) 1 <> 0) ->
  Z.land (UART_STATUS (k + j)%nat) 1 = 0 ->
  (j < fuel)%nat ->
  uart_putc char_is_signed UART_STATUS fuel c k =
  Run (map (fun i => RdStatus (UART_STATUS i)) (seq k (S j))
         ++ [WrTx (char_to_u32 char_is_signed c)])
      (k + S j) (Some tt).
Proof.
  intros Hbusy Hidle Hfuel.
  pose proof (wait_idle_after_busy UART_STATUS j fuel k Hbusy Hidle Hfuel) as Hw.
  rewrite uart_putc_returned by (rewrite Hw; reflexivity).
  rewrite Hw. reflexivity.
Qed.

Lemma uart_putc_after_busy_reads_witness :
  (forall i, (i < 2)%nat ->
     Z.land ((fun i => if (i <? 2)%nat then 3 else 4) (0 + i)%nat) 1 <> 0) /\
  Z.land ((fun i => if (i <? 2)%nat then 3 else 4) (0 + 2)%nat) 1 = 0 /\
  (2 < 5)%nat /\
  uart_putc false (fun i => if (i <? 2)%nat then 3 else 4) 5 "A" 0%nat =
  Run [RdStatus 3; RdStatus 3; RdStatus 4; WrTx 65] 3 (Some tt).
Proof.
  assert (Hbusy : forall i, (i < 2)%nat ->
     Z.land ((fun i => if (i <? 2)%nat then 3 else 4) (0 + i)%nat) 1 <> 0).
  { intros i Hi. destruct i as [|[|i]]; [discriminate | discriminate | lia]. }
  assert (Hidle :
     Z.land ((fun i => if (i <? 2)%nat then 3 else 4) (0 + 2)%nat) 1 = 0)
    by reflexivity.
  assert (Hfuel : (2 < 5)%nat) by lia.
  split; [exact Hbusy|]. split; [exact Hidle|]. split; [exact Hfuel|].
  exact (uart_putc_after_busy_reads false
           (fun i => if (i <? 2)%nat then 3 else 4) 2 5 0 "A"%char
           Hbusy Hidle Hfuel).
Defined.

(** ** The word written for a character *)

Lemma ascii_code_range (c : ascii) : 0 <= ascii_code c < 256.
Proof. unfold ascii_code. pose proof (N_ascii_bounded c). lia. Qed.

Lemma char_to_u32_low_byte (char_is_signed : bool) (c : ascii) :
  0 <= char_to_u32 char_is_signed c < 2 ^ 32 /\
  Z.land (char_to_u32 char_is_signed c) 0xFF = ascii_code c /\
  (ascii_code c < 128 -> char_to_u32 char_is_signed c = ascii_code c).
Proof.
  pose proof (ascii_code_range c) as Hc.
  unfold char_to_u32. fold (ascii_code c). cbn zeta.
  change 0xFF with (Z.ones 8). rewrite Z.land_ones by lia.
  change (2 ^ 8) with 256.
  destruct char_is_signed; cbn [andb].
  - destruct (Z.leb_spec 128 (ascii_code c)) as [Hhi|Hlo].
    + unfold u32.
      replace ((ascii_code c - 256) mod 2 ^ 32)
        with (ascii_code c + (2 ^ 32 - 256))
        by (apply Z.mod_unique with (q := -1); lia).
      split; [lia|]. split; [|lia].
      replace (ascii_code c + (2 ^ 32 - 256))
        with (ascii_code c + 16777215 * 256) by lia.
      rewrite Z.mod_add by lia. apply Z.mod_small. lia.
    + split; [lia|]. split; [apply Z.mod_small; lia | reflexivity].
  - split; [lia|]. split; [apply Z.mod_small; lia | reflexivity].
Qed.

(** X5: whatever [uart_putc] writes to the data register is a 32-bit word
    whose low byte is the code of its character, whether plain [char] is
    signed or not; for a 7-bit character the word is the code itself. *)
Theorem uart_putc_writes_char_code
  (char_is_signed : bool) (UART_STATUS : nat -> Z) (fuel k : nat) (c : ascii) :
  Forall (fun v => 0 <= v < 2 ^ 32 /\
                   Z.land v 0xFF = ascii_code c /\
                   (ascii_code c < 128 -> v = ascii_code c))
         (tx_writes (events (uart_putc char_is_signed UART_STATUS fuel c k))).
Proof.
  destruct (uart_putc_outcome char_is_signed UART_STATUS fuel k c) as [H|H].
  - rewrite uart_putc_tx_returned by exact H.
    constructor; [apply char_to_u32_low_byte | constructor].
  - rewrite uart_putc_tx_spinning by exact H. constructor.
Qed.

(** ** Budget *)

Section Budget.

Variable char_is_signed : bool.
Variable UART_STATUS : nat -> Z.

Lemma wait_idle_more_fuel (fuel fuel' k : nat) :
  outcome (wait_idle UART_STATUS fuel k) = Some tt ->
  (fuel <= fuel')%nat ->
  wait_idle UART_STATUS fuel' k = wait_idle UART_STATUS fuel k.
Proof.
  revert fuel' k. induction fuel as [|fuel IH]; intros fuel' k Ho Hle;
    [discriminate|].
  destruct fuel' as [|fuel']; [lia|].
  rewrite wait_idle_step in Ho. rewrite !wait_idle_step.
  destruct (Z.land (UART_STATUS k) 1 =? 0); [reflexivity|].
  cbn [outcome] in Ho. rewrite (IH fuel' (S k) Ho) by lia. reflexivity.
Qed.

Lemma uart_putc_more_fuel (fuel fuel' k : nat) (c : ascii) :
  outcome (uart_putc char_is_signed UART_STATUS fuel c k) = Some tt ->
  (fuel <= fuel')%nat ->
  uart_putc char_is_signed UART_STATUS fuel' c k =
  uart_putc char_is_signed UART_STATUS fuel c k.
Proof.
  intros Ho Hle.
  destruct (wait_idle_outcome UART_STATUS fuel k) as [H|H].
  - unfold uart_putc, bind. rewrite (wait_idle_more_fuel fuel fuel' k H Hle).
    reflexivity.
  - rewrite (uart_putc_spinning _ _ _ _ _ H) in Ho. discriminate.
Qed.

End Budget.

(** X6: the observation budget does not change a call that returns: if
    [uart_puts] returns when every poll loop is observed for [fuel] reads,
    it makes the very same run under any larger budget. *)
Theorem uart_puts_more_fuel
  (char_is_signed : bool) (UART_STATUS : nat -> Z)
  (fuel fuel' : nat) (s : string) (k : nat) :
  outcome (uart_puts char_is_signed UART_STATUS fuel s k) = Some tt ->
  (fuel <= fuel')%nat ->
  uart_puts char_is_signed UART_STATUS fuel' s k =
  uart_puts char_is_signed UART_STATUS fuel s k.
Proof.
  intros Ho Hle. revert k Ho. induction s as [|c s IH]; intros k Ho; [reflexivity|].
  destruct (N_of_ascii c =? 0)%N eqn:E.
  - cbn [uart_puts]. rewrite E. reflexivity.
  - rewrite uart_puts_step in Ho by exact E. rewrite !uart_puts_step by exact E.
    destruct (uart_putc_outcome char_is_signed UART_STATUS fuel k c) as [H|H].
    + rewrite (bind_returned _ _ k tt H) in Ho. cbn [outcome] in Ho.
      unfold bind.
      rewrite (uart_putc_more_fuel char_is_signed UART_STATUS fuel fuel' k c H Hle).
      rewrite H. rewrite (IH _ Ho). reflexivity.
    + rewrite (bind_spinning _ _ k H) in Ho. discriminate.
Qed.

Lemma uart_puts_more_fuel_witness :
  outcome (uart_puts false (fun i => if (i <? 2)%nat then 1 else 0) 3
             (String "A" EmptyString) 0%nat) = Some tt /\
  (3 <= 9)%nat /\
  uart_puts false (fun i => if (i <? 2)%nat then 1 else 0) 9
    (String "A" EmptyString) 0%nat =
  uart_puts false (fun i => if (i <? 2)%nat then 1 else 0) 3
    (String "A" EmptyString) 0%nat.
Proof.
  assert (Ho : outcome (uart_puts false (fun i => if (i <? 2)%nat then 1 else 0) 3
                          (String "A" EmptyString) 0%nat) = Some tt)
    by reflexivity.
  assert (Hle : (3 <= 9)%nat) by lia.
  split; [exact Ho|]. split; [exact Hle|].
  exact (uart_puts_more_fuel false (fun i => if (i <? 2)%nat then 1 else 0)
           3 9 (String "A" EmptyString) 0%nat Ho Hle).
Defined.

(** ** The two phases of the program *)


(** ** A transmitter that never becomes idle *)

Lemma uart_puts_busy
  (char_is_signed : bool) (UART_STATUS : nat -> Z) (fuel : nat) (s : string) (k : nat) :
  always_busy UART_STATUS -> c_chars s <> [] ->
  uart_puts char_is_signed UART_STATUS fuel s k =
  Run (map (fun j => RdStatus (UART_STATUS j)) (seq k fuel)) (k + fuel) None.
Proof.
  intros Hbusy Hs. destruct s as [|c s]; [contradiction|].
  cbn [c_chars] in Hs. destruct (N_of_ascii c =? 0)%N eqn:E; [contradiction|].
  rewrite uart_puts_step by exact E.
  pose proof (wait_idle_busy UART_STATUS fuel k Hbusy) as Hw.
  assert (Hc : uart_putc char_is_signed UART_STATUS fuel c k =
               Run (map (fun j => RdStatus (UART_STATUS j)) (seq k fuel))
                   (k + fuel) None).
  { rewrite uart_putc_spinning by (rewrite Hw; reflexivity).
    rewrite Hw. reflexivity. }
  rewrite bind_spinning by (rewrite Hc; reflexivity).
  rewrite Hc. reflexivity.
Qed.

(** X8: when the status register never shows idle, [uart_puts] on a
    string with at least one character, and with it the whole of [main],
    does nothing but read the status register: no byte is sent, no LED is
    ever written, and the call never returns. *)
Theorem main_hangs_while_busy
  (char_is_signed : bool) (UART_STATUS : nat -> Z) (n fuel k : nat) (s : string) :
  always_busy UART_STATUS ->
  (c_chars s <> [] ->
   uart_puts char_is_signed UART_STATUS fuel s k =
   Run (map (fun j => RdStatus (UART_STATUS j)) (seq k fuel)) (k + fuel) None) /\
  main char_is_signed UART_STATUS n fuel k =
  Run (map (fun j => RdStatus (UART_STATUS j)) (seq k fuel)) (k + fuel) None.
Proof.
  intros Hbusy. split; [apply uart_puts_busy, Hbusy|].
  assert (Hg : c_chars greeting <> []) by discriminate.
  unfold main.
  rewrite bind_spinning
    by (rewrite (uart_puts_busy _ _ _ _ _ Hbusy Hg); reflexivity).
  rewrite (uart_puts_busy _ _ _ _ _ Hbusy Hg). reflexivity.
Qed.

Lemma main_hangs_while_busy_witness :
  always_busy (fun _ => 1) /\
  main false (fun _ => 1) 4 3 0%nat =
  Run [RdStatus 1; RdStatus 1; RdStatus 1] 3 None.
Proof.
  assert (Hbusy : always_busy (fun _ => 1)) by (intros k; reflexivity).
  split; [exact Hbusy|].
  exact (proj2 (main_hangs_while_busy false (fun _ => 1) 4%nat 3%nat 0%nat
                  EmptyString Hbusy)).
Defined.

(** ** The delay, for any argument *)

Lemma countdown_seq (n : nat) :
  countdown n = map (fun i => Z.of_nat n - Z.of_nat i) (seq 0 (S n)).
Proof.
  induction n as [|n IH]; [reflexivity|].
  change (seq 0 (S (S n))) with (0%nat :: seq 1 (S n)).
  rewrite <- seq_shift, map_cons, map_map. cbn [countdown].
  apply (f_equal2 cons); [lia|].
  rewrite IH. apply map_ext. intros i. lia.
Qed.

(** X9: [delay(count)] takes its argument modulo 2^32 and, with N the
    reduced value, evaluates [count--] on the values N, N - 1, ..., 1, 0 in
    this order, then returns; it makes no other access. *)
Theorem delay_reads_countdown (count : Z) (k : nat) :
  delay count k =
  Run (map (fun i => DecCount (u32 count - Z.of_nat i))
           (seq 0 (S (Z.to_nat (u32 count)))))
      k (Some tt).
Proof.
  rewrite delay_run, countdown_seq, map_map, <- u32_nat. reflexivity.
Qed.

(** ** The loop, iteration by iteration *)

Lemma iterations_app (t1 t2 : list event) :
  iterations (t1 ++ t2) = (iterations t1 + iterations t2)%nat.
Proof.
  induction t1 as [|e t1 IH]; [reflexivity|].
  destruct e; simpl; rewrite ?IH; try reflexivity.
  destruct (old =? 0); reflexivity.
Qed.

Lemma decrements_app (t1 t2 : list event) :
  decrements (t1 ++ t2) = (decrements t1 + decrements t2)%nat.
Proof.
  induction t1 as [|e t1 IH]; [reflexivity|].
  destruct e; simpl; rewrite ?IH; reflexivity.
Qed.

Lemma u32_DELAY_COUNT : u32 DELAY_COUNT = DELAY_COUNT.
Proof. reflexivity. Qed.

(** The delay of the loop: it returns, and its events are counted here
    once and for all. *)
Lemma delay_DELAY_COUNT (k : nat) :
  exists d : list event,
    delay DELAY_COUNT k = Run d k (Some tt) /\
    Z.of_nat (iterations d) = DELAY_COUNT /\
    Z.of_nat (decrements d) = DELAY_COUNT + 1.
Proof.
  exists (map DecCount (countdown (Z.to_nat (u32 DELAY_COUNT)))).
  split; [apply delay_run|]. split.
  - rewrite countdown_iterations, <- u32_nat. exact u32_DELAY_COUNT.
  - rewrite countdown_decrements, Nat2Z.inj_succ, <- u32_nat, u32_DELAY_COUNT.
    apply Z.add_1_r.
Qed.

(** One iteration, with the delay's events abstract but counted. *)
Lemma steady_iteration_counted (n : nat) (p : Z) (k : nat) :
  exists d : list event,
    (Z.of_nat (iterations d) = DELAY_COUNT /\
     Z.of_nat (decrements d) = DELAY_COUNT + 1 /\
     events (delay DELAY_COUNT k) = d) /\
    steady (S n) p k =
    Run (WrLed (Z.land p 0x0F) :: d ++ events (steady n (next_pattern p) k))
        (polls (steady n (next_pattern p) k))
        (outcome (steady n (next_pattern p) k)).
Proof.
  destruct (delay_DELAY_COUNT k) as (d & Hd & Hit & Hdec).
  exists d. split; [split; [exact Hit | split; [exact Hdec|]]|].
  - rewrite Hd. reflexivity.
  - cbn [steady].
    rewrite (bind_returned _ _ k tt) by reflexivity.
    cbn [write_GPIO_LED events polls outcome].
    rewrite (bind_returned _ _ k tt) by (rewrite Hd; reflexivity).
    rewrite Hd. cbn [events polls outcome app].
    rewrite (u32_small (Z.land p 0x0F)) by (pose proof (nibble_range p); lia).
    reflexivity.
Qed.

(** X10: observing the loop for one more iteration only appends to its
    history: the next LED write, of the low nibble of the counter after n
    increments, followed by the events of one [delay(5000000)]. *)
Theorem steady_one_more_iteration (n : nat) (p : Z) (k : nat) :
  events (steady (S n) p k) =
  events (steady n p k)
    ++ WrLed (Z.land (Nat.iter n next_pattern p) 0x0F)
       :: events (delay DELAY_COUNT k).
Proof.
  revert p. induction n as [|n IH]; intros p.
  - destruct (steady_iteration_counted 0 p k) as (d & (_ & _ & Hd) & ->).
    rewrite Hd. cbn. rewrite app_nil_r. reflexivity.
  - destruct (steady_iteration_counted (S n) p k) as (d & (_ & _ & Hd) & ->).
    destruct (steady_iteration_counted n p k) as (d' & (_ & _ & Hd') & ->).
    rewrite Hd in Hd'. subst d'.
    cbn [events]. rewrite (IH (next_pattern p)), Hd, Nat.iter_succ_r.
    rewrite !app_comm_cons, app_assoc. reflexivity.
Qed.

(** X11: in n iterations the loop writes the LED register n times and
    spends n times 5,000,000 iterations in [delay], the loop variable of
    [delay] being decremented 5,000,001 times per call. *)
Theorem steady_delay_total (n : nat) (p : Z) (k : nat) :
  List.length (led_writes (events (steady n p k))) = n /\
  Z.of_nat (iterations (events (steady n p k))) = Z.of_nat n * 5000000 /\
  Z.of_nat (decrements (events (steady n p k))) = Z.of_nat n * 5000001.
Proof.
  split; [rewrite steady_led_from, length_map, length_seq; reflexivity|].
  revert p. induction n as [|n IH]; intros p; [split; reflexivity|].
  destruct (steady_iteration_counted n p k) as (d & (Hit & Hdec & _) & ->).
  destruct (IH (next_pattern p)) as [IHit IHdec].
  cbn [events iterations decrements].
  rewrite iterations_app, decrements_app, !Nat2Z.inj_add, Hit, Hdec, IHit, IHdec.
  unfold DELAY_COUNT. lia.
Qed.

(** ** Bytes sent and idle reports *)

(** The monitor does reject a read after an idle report, a write without
    one, and an LED write in between. *)
Example idle_then_write_rejects_second_read :
  idle_then_write false [RdStatus 0; RdStatus 0; WrTx 65] = false.
Proof. reflexivity. Qed.

Example idle_then_write_rejects_busy_write :
  idle_then_write false [RdStatus 1; WrTx 65] = false.
Proof. reflexivity. Qed.

Example idle_then_write_rejects_led_between :
  idle_then_write false [RdStatus 0; WrLed 1; WrTx 65] = false.
Proof. reflexivity. Qed.

(** What the monitor accepts has as many bytes written as idle reports,
    or one less when the last report is still to be used. *)
Lemma idle_then_write_counts (t : list event) (pending : bool) :
  idle_then_write pending t = true ->
  (List.length (tx_writes t) <= idle_reads t + (if pending then 1 else 0)
   <= S (List.length (tx_writes t)))%nat.
Proof.
  revert pending. unfold idle_reads.
  induction t as [|e t IH]; intros pending H; [destruct pending; cbn; lia|].
  destruct e, pending; cbn [idle_then_write] in H; try discriminate;
    specialize (IH _ H); cbn [tx_writes status_reads filter List.length] in *;
    try lia.
  destruct (Z.land v 1 =? 0); cbn [List.length] in *; lia.
Qed.

(** It accepts every prefix of what it accepts. *)
Lemma idle_then_write_firstn (t : list event) (pending : bool) (m : nat) :
  idle_then_write pending t = true ->
  idle_then_write pending (firstn m t) = true.
Proof.
  revert pending m. induction t as [|e t IH]; intros pending m H;
    [destruct m; reflexivity|].
  destruct m as [|m]; [reflexivity|].
  destruct e, pending; cbn [idle_then_write firstn] in *; try discriminate;
    apply IH, H.
Qed.

Lemma idle_then_write_quiet (t : list event) :
  tx_writes t = [] -> status_reads t = [] -> idle_then_write false t = true.
Proof.
  induction t as [|e t IH]; intros Htx Hrd; [reflexivity|].
  destruct e; cbn in *; try discriminate; auto.
Qed.

Section Balance.

Variable char_is_signed : bool.
Variable UART_STATUS : nat -> Z.

(** The poll loop ends on its only idle report. *)
Lemma wait_idle_then (fuel k : nat) (rest : list event) :
  outcome (wait_idle UART_STATUS fuel k) = Some tt ->
  idle_then_write false (events (wait_idle UART_STATUS fuel k) ++ rest) =
  idle_then_write true rest.
Proof.
  revert k. induction fuel as [|fuel IH]; intros k; [discriminate|].
  rewrite wait_idle_step.
  destruct (Z.land (UART_STATUS k) 1 =? 0) eqn:E; cbn.
  - intros _. rewrite E. reflexivity.
  - intros H. rewrite E. apply IH, H.
Qed.

Lemma wait_idle_no_report (fuel k : nat) :
  outcome (wait_idle UART_STATUS fuel k) = None ->
  idle_then_write false (events (wait_idle UART_STATUS fuel k)) = true.
Proof.
  revert k. induction fuel as [|fuel IH]; intros k; [reflexivity|].
  rewrite wait_idle_step.
  destruct (Z.land (UART_STATUS k) 1 =? 0) eqn:E; cbn; [discriminate|].
  intros H. rewrite E. apply IH, H.
Qed.

Lemma uart_putc_uses_report (fuel k : nat) (c : ascii) (rest : list event) :
  outcome (uart_putc char_is_signed UART_STATUS fuel c k) = Some tt ->
  idle_then_write false
    (events (uart_putc char_is_signed UART_STATUS fuel c k) ++ rest) =
  idle_then_write false rest.
Proof.
  destruct (wait_idle_outcome UART_STATUS fuel k) as [H|H].
  - rewrite (uart_putc_returned _ _ _ _ _ H). cbn [events]. intros _.
    rewrite <- app_assoc, wait_idle_then by exact H. reflexivity.
  - rewrite (uart_putc_spinning _ _ _ _ _ H). discriminate.
Qed.

Lemma uart_putc_polling (fuel k : nat) (c : ascii) :
  outcome (uart_putc char_is_signed UART_STATUS fuel c k) = None ->
  idle_then_write false
    (events (uart_putc char_is_signed UART_STATUS fuel c k)) = true.
Proof.
  destruct (wait_idle_outcome UART_STATUS fuel k) as [H|H].
  - rewrite (uart_putc_returned _ _ _ _ _ H). discriminate.
  - rewrite (uart_putc_spinning _ _ _ _ _ H). intros _.
    apply wait_idle_no_report, H.
Qed.

Lemma uart_puts_uses_reports (fuel : nat) (s : string) (k : nat) (rest : list event) :
  outcome (uart_puts char_is_signed UART_STATUS fuel s k) = Some tt ->
  idle_then_write false
    (events (uart_puts char_is_signed UART_STATUS fuel s k) ++ rest) =
  idle_then_write false rest.
Proof.
  revert k. induction s as [|c s IH]; intros k; [reflexivity|].
  destruct (N_of_ascii c =? 0)%N eqn:E.
  - cbn [uart_puts]. rewrite E. reflexivity.
  - rewrite uart_puts_step by exact E.
    destruct (uart_putc_outcome char_is_signed UART_STATUS fuel k c) as [H|H].
    + rewrite (bind_returned _ _ k tt H). cbn [events outcome]. intros Ho.
      rewrite <- app_assoc, uart_putc_uses_report by exact H. apply IH, Ho.
    + rewrite (bind_spinning _ _ k H). discriminate.
Qed.

Lemma uart_puts_alternates (fuel : nat) (s : string) (k : nat) :
  idle_then_write false
    (events (uart_puts char_is_signed UART_STATUS fuel s k)) = true.
Proof.
  revert k. induction s as [|c s IH]; intros k; [reflexivity|].
  destruct (N_of_ascii c =? 0)%N eqn:E.
  - cbn [uart_puts]. rewrite E. reflexivity.
  - rewrite uart_puts_step by exact E.
    destruct (uart_putc_outcome char_is_signed UART_STATUS fuel k c) as [H|H].
    + rewrite (bind_returned _ _ k tt H). cbn [events].
      rewrite uart_putc_uses_report by exact H. apply IH.
    + rewrite (bind_spinning _ _ k H). cbn [events].
      apply uart_putc_polling, H.
Qed.

Lemma main_alternates (n fuel k : nat) :
  idle_then_write false
    (events (main char_is_signed UART_STATUS n fuel k)) = true.
Proof.
  rewrite main_events. cbn zeta.
  destruct (outcome (uart_puts char_is_signed UART_STATUS fuel greeting k))
    as [[]|] eqn:Ho.
  - rewrite uart_puts_uses_reports by exact Ho.
    apply idle_then_write_quiet; apply steady_frame.
  - apply uart_puts_alternates.
Qed.

End Balance.

(** X12: in every prefix of the events of [uart_puts], and of [main], each
    status read that showed the transmitter idle is followed at once by a
    write to the data register, and each such write follows at once an
    idle read.  So the number of bytes written is the number of idle
    reports, or one less between an idle read and its write. *)
Theorem one_byte_per_idle_read
  (char_is_signed : bool) (UART_STATUS : nat -> Z) (n fuel k m : nat) (s : string) :
  let p := firstn m (events (uart_puts char_is_signed UART_STATUS fuel s k)) in
  let q := firstn m (events (main char_is_signed UART_STATUS n fuel k)) in
  (idle_then_write false p = true /\
   (List.length (tx_writes p) <= idle_reads p <= S (List.length (tx_writes p)))%nat) /\
  (idle_then_write false q = true /\
   (List.length (tx_writes q) <= idle_reads q <= S (List.length (tx_writes q)))%nat).
Proof.
  cbn zeta.
  pose proof (idle_then_write_firstn _ false m
                (uart_puts_alternates char_is_signed UART_STATUS fuel s k)) as Hp.
  pose proof (idle_then_write_firstn _ false m
                (main_alternates char_is_signed UART_STATUS n fuel k)) as Hq.
  pose proof (idle_then_write_counts _ _ Hp) as Cp.
  pose proof (idle_then_write_counts _ _ Hq) as Cq.
  rewrite Nat.add_0_r in Cp, Cq.
  split; split; assumption.
Qed.

(** ** The program on a transmitter that answers *)


